(** * Implicit auxiliary-task training: [aux_tasks/synthetic/run_synthetic.py]

    A shallow embedding of the stochastic training step [_train_step], of the
    training loop [train] and of the metric functions it calls, together with
    the properties the specification states about them.

    Conventions of the embedding.
    - Scalars are binary64 floats ([main] switches jax to 64 bits); equality
      is Leibniz equality on [float] (one NaN).
    - A 2-d array is the list of its rows, a 1-d array a list.  The number of
      columns of an array without rows is read as 0.
    - jax arrays are immutable values: every jax operation returns a fresh
      array.  Python names bound to arrays inside [train] are modelled as
      references into a store of arrays, so that aliasing is visible.
    - Python exceptions are the [Raise] results of [result].
    - Element-wise arithmetic pairs its operands position by position; the
      operand shapes agree by the sampler's contract ([draw_states_length]).
    - The functions of [aux_tasks.synthetic.utils], [aux_tasks.synthetic.estimates],
      [jax.random] and [jax.numpy.linalg] are collaborators ([Collaborators]);
      only their call contracts are used.  Under [jax.jit] a collaborator
      cannot raise on the values it is given; the ones [compute_metrics]
      calls eagerly can.
    - The metric writer and the checkpoint manager are sinks: the store
      records what is handed to them. *)

From Stdlib Require Import PrimFloat Uint63 ZArith String List Arith Lia Bool.
From stdpp Require Import base list.
Import ListNotations.

#[local] Set Warnings "-inexact-float".

Local Open Scope nat_scope.
Local Open Scope string_scope.
Local Open Scope list_scope.

(** ** Exceptions and results *)

Inductive exn : Type :=
| AssertionError      (* a failed [assert] *)
| UnboundLocalError   (* a local variable read before assignment *)
| TypeError           (* item assignment on an immutable jax array, [None + x] *)
| IndexError          (* index arrays that cannot be broadcast together *)
| LinAlgError         (* [np.linalg.LinAlgError] *)
| ZeroDivisionError   (* division of Python integers by zero *)
| OtherError          (* any other exception a collaborator may raise *)
| DanglingReference.  (* model only: a name that is bound to no array *)

Inductive result (A : Type) : Type :=
| Ok (a : A)
| Raise (e : exn).

Arguments Ok {A} a.
Arguments Raise {A} e.

Definition rbind {A B : Type} (r : result A) (k : A -> result B) : result B :=
  match r with
  | Ok a => k a
  | Raise e => Raise e
  end.

Notation "'let*' x ':=' c1 'in' c2" := (rbind c1 (fun x => c2))
  (at level 10, x name, c1 at level 100, c2 at level 200).
Notation "'let*' ' pat ':=' c1 'in' c2" :=
  (rbind c1 (fun x => match x with pat => c2 end))
  (at level 10, pat pattern, c1 at level 100, c2 at level 200).

(** ** Arrays of binary64 floats *)

Abbreviation vector := (list float).
Abbreviation matrix := (list (list float)).

Definition of_nat (n : nat) : float := PrimFloat.of_uint63 (Uint63.of_Z (Z.of_nat n)).

(** [M.shape] *)
Definition nrows (M : matrix) : nat := length M.
Definition ncols (M : matrix) : nat := length (hd [] M).

(** Reading with an index array clamps an index that is out of bounds
    (jax's default for gathers); indices are never negative here. *)
Definition get_clamp {A : Type} (l : list A) (i : nat) (d : A) : A :=
  nth (Nat.min i (length l - 1)) l d.

(** [M[states, :]] *)
Definition take_rows (M : matrix) (states : list nat) : matrix :=
  map (fun s => get_clamp M s []) states.

(** [M[s, t]] *)
Definition entry (M : matrix) (s t : nat) : float :=
  get_clamp (get_clamp M s []) t 0%float.

(** [M[states, t]] for a single column index [t] broadcast against [states] *)
Definition take_entries (M : matrix) (states : list nat) (t : nat) : vector :=
  map (fun s => entry M s t) states.

(** [jnp.squeeze(M[:, [t]], axis=1)] *)
Definition column (M : matrix) (t : nat) : vector :=
  map (fun r => get_clamp r t 0%float) M.

(** [M.T] *)
Definition transpose (M : matrix) : matrix :=
  map (fun j => map (fun r => nth j r 0%float) M) (seq 0 (ncols M)).

Definition dot (u v : vector) : float :=
  fold_left (fun acc xy => (acc + fst xy * snd xy)%float) (combine u v) 0%float.

(** [M @ v] and [jnp.dot(M, v)] for a 1-d [v] *)
Definition matvec (M : matrix) (v : vector) : vector := map (fun r => dot r v) M.

(** [A @ B] *)
Definition matmul (A B : matrix) : matrix :=
  map (fun r => map (fun c => dot r c) (transpose B)) A.

Definition vec_sub (u v : vector) : vector :=
  map (fun xy => (fst xy - snd xy)%float) (combine u v).

Definition mat_sub (A B : matrix) : matrix :=
  map (fun rs => vec_sub (fst rs) (snd rs)) (combine A B).

(** [c * M] *)
Definition scale (c : float) (M : matrix) : matrix :=
  map (map (fun x => (c * x)%float)) M.

(** [M * c] *)
Definition scale_r (M : matrix) (c : float) : matrix :=
  map (map (fun x => (x * c)%float)) M.

(** [v / c] *)
Definition vec_div (v : vector) (c : float) : vector :=
  map (fun x => (x / c)%float) v.

(** [jnp.arange(0, n)] *)
Definition arange (n : nat) : list nat := seq 0 n.

(** [jnp.tile(w, m)]: [m] copies of [w], one after the other *)
Fixpoint tile (w : vector) (m : nat) : vector :=
  match m with
  | 0 => []
  | S m' => w ++ tile w m'
  end.

(** [jnp.reshape(v, (m, d))] of a flat array, row-major *)
Fixpoint reshape (v : vector) (m d : nat) : matrix :=
  match m with
  | 0 => []
  | S m' => firstn d v :: reshape (skipn d v) m' d
  end.

(** [G * jnp.expand_dims(e, axis=1)]: row [i] of [G] times the scalar [e[i]] *)
Definition mul_rows (G : matrix) (e : vector) : matrix :=
  map (fun ge => map (fun x => (x * snd ge)%float) (fst ge)) (combine G e).

(** [M.at[states, :].set(rows)]: a fresh array; an index out of bounds is
    dropped (jax's default for scatters).  Updates are applied in order. *)
Definition at_set (M : matrix) (states : list nat) (rows : matrix) : matrix :=
  fold_left (fun acc sr => <[fst sr := snd sr]> acc) (combine states rows) M.

(** [jnp.expand_dims(v, axis=1)] *)
Definition expand_dims (v : vector) : matrix := map (fun x => [x]) v.

(** An index array of shape (1,), as drawn for the task, read as its one
    index.  Every use of [task] in the step needs that shape: [squeeze(axis=1)]
    and the broadcast against the state indices. *)
Definition the_index (task : list nat) : result nat :=
  match task with
  | [t] => Ok t
  | _ => Raise IndexError
  end.

(** [a[:, task] -= v] on a jax array.  The read and the subtraction are done,
    the write-back is item assignment, which jax arrays refuse (the comment
    above the update of [Phi] in the source: the in-place form "will only
    work with numpy"; [Phi] itself is updated with [.at[...].set]). *)
Definition isub_columns (a : matrix) (task : nat) (v : matrix) : result matrix :=
  let current := expand_dims (column a task) in
  let _updated := mat_sub current v in
  Raise TypeError.

(** ** Collaborators *)

Class Collaborators : Type := {
  (** jax PRNG keys *)
  key : Type;
  (** [utils.draw_states(population, batch, key) -> (indices, key)] *)
  draw_states : nat -> nat -> key -> list nat * key;
  (** the sampler returns [batch] indices (spec, 4.1) *)
  draw_states_length : forall n k s, length (fst (draw_states n k s)) = k;
  (** [utils.compute_max_feature_norm(features)] *)
  compute_max_feature_norm : matrix -> float;
  (** [utils.outer_objective_mc(Phi, Psi)] *)
  outer_objective_mc : matrix -> matrix -> float;
  (** [estimates.naive_inverse_covariance_matrix(Phi, key, J)] *)
  naive_inverse_covariance_matrix : matrix -> key -> nat -> matrix * key;
  (** [estimates.lissa_inverse_covariance_matrix(Phi, key, J, kappa, None)];
      the source always passes [None] as the last argument *)
  lissa_inverse_covariance_matrix :
    matrix -> key -> nat -> float -> option float -> matrix * key;
  (** [jax.random.split(key)] and [jax.random.normal(key, (d, T))] *)
  random_split : key -> key * key;
  random_normal : key -> nat -> nat -> matrix;
  (** [jnp.linalg.pinv], called under [jax.jit] *)
  pinv : matrix -> matrix;
  (** [jnp.linalg.norm] of the flattened entries *)
  norm : vector -> float;
  (** [jnp.linalg.solve], [svd], [qr], called eagerly: they may raise *)
  solve : matrix -> matrix -> result matrix;
  svd : matrix -> result (matrix * vector * matrix);
  qr : matrix -> result (matrix * matrix);
  (** [jnp.arccos] and [jnp.round(_, decimals=6)] on scalars *)
  arccos : float -> float;
  round6 : float -> float;
}.

(** [jnp.linalg.norm] of a 2-d array (Frobenius) *)
Definition mat_norm `{Collaborators} (M : matrix) : float := norm (concat M).

(** ** The training step *)

(** The dictionary a step returns; [K] is the type of PRNG keys. *)
Record step_output (K : Type) : Type := {
  out_Phi : matrix;
  out_estimated_feature_norm : option float;
  out_key : K;
  out_gradient : matrix;
}.

Arguments out_Phi {K} _.
Arguments out_estimated_feature_norm {K} _.
Arguments out_key {K} _.
Arguments out_gradient {K} _.

Section TrainStep.
Context `{C : Collaborators}.

(** Lines 207-213: the running estimate of the feature norm. *)
Definition update_feature_norm (Phi : matrix) (source_states : list nat)
  (estimated_feature_norm : option float) (method : string)
  (estimate_feature_norm : bool) : result (option float) :=
  if (method =? "lissa") && estimate_feature_norm then
    let features := take_rows Phi source_states in
    let max_norm := compute_max_feature_norm features in
    match estimated_feature_norm with
    | Some e => Ok (Some (e + 0.01 * (max_norm - e))%float)
    | None => Raise TypeError
    end
  else Ok estimated_feature_norm.

(** Lines 268-271: one weight estimate. *)
Definition weight_estimate (covariance Phi Psi : matrix)
  (weight_states : list nat) (task : nat) : vector :=
  vec_div
    (matvec (matmul covariance (transpose (take_rows Phi weight_states)))
            (take_entries Psi weight_states task))
    (of_nat (length weight_states)).

(** Lines 225-264: the covariance estimates and weight states of the implicit
    methods.  A local that no branch assigns stays unbound ([None]). *)
Definition implicit_estimates (Phi : matrix) (k : key) (method : string)
  (lissa_kappa : float) (covariance_batch_size weight_batch_size : nat)
  : option matrix * option matrix * option (list nat) * option (list nat) * key :=
  let num_states := nrows Phi in
  let vars :=
    if method =? "oracle" then
      let covariance_1 := scale_r (pinv (matmul (transpose Phi) Phi)) (of_nat num_states) in
      let covariance_2 := covariance_1 in
      let weight_states_1 := arange num_states in
      let weight_states_2 := weight_states_1 in
      (Some covariance_1, Some covariance_2, Some weight_states_1, Some weight_states_2, k)
    else (None, None, None, None, k) in
  if method =? "naive" then
    let '(covariance_1, k) := naive_inverse_covariance_matrix Phi k covariance_batch_size in
    let covariance_2 := covariance_1 in
    let '(weight_states_1, k) := draw_states num_states weight_batch_size k in
    let weight_states_2 := weight_states_1 in
    (Some covariance_1, Some covariance_2, Some weight_states_1, Some weight_states_2, k)
  else if method =? "naive++" then
    let '(covariance_1, k) := naive_inverse_covariance_matrix Phi k covariance_batch_size in
    let '(covariance_2, k) := naive_inverse_covariance_matrix Phi k covariance_batch_size in
    let '(weight_states_1, k) := draw_states num_states weight_batch_size k in
    let '(weight_states_2, k) := draw_states num_states weight_batch_size k in
    (Some covariance_1, Some covariance_2, Some weight_states_1, Some weight_states_2, k)
  else if method =? "lissa" then
    let '(covariance_1, k) :=
      lissa_inverse_covariance_matrix Phi k covariance_batch_size lissa_kappa None in
    let '(covariance_2, k) :=
      lissa_inverse_covariance_matrix Phi k covariance_batch_size lissa_kappa None in
    let '(weight_states_1, k) := draw_states num_states weight_batch_size k in
    let '(weight_states_2, k) := draw_states num_states weight_batch_size k in
    (Some covariance_1, Some covariance_2, Some weight_states_1, Some weight_states_2, k)
  else vars.

(** Lines 215-271: the two weight vectors and the advanced key. *)
Definition weight_vectors (Phi Psi explicit_weight_matrix : matrix) (task : nat)
  (k : key) (method : string) (lissa_kappa : float)
  (covariance_batch_size weight_batch_size : nat)
  : result (vector * vector * key) :=
  if method =? "explicit" then
    let weight_1 := column explicit_weight_matrix task in
    let weight_2 := column explicit_weight_matrix task in
    Ok (weight_1, weight_2, k)
  else
    match implicit_estimates Phi k method lissa_kappa
            covariance_batch_size weight_batch_size with
    | (Some covariance_1, Some covariance_2, Some weight_states_1, Some weight_states_2, k) =>
        let weight_1 := weight_estimate covariance_1 Phi Psi weight_states_1 task in
        let weight_2 := weight_estimate covariance_2 Phi Psi weight_states_2 task in
        Ok (weight_1, weight_2, k)
    | _ => Raise UnboundLocalError
    end.

(** Lines 274-275. *)
Definition estimated_error (Phi Psi : matrix) (source_states : list nat)
  (task : nat) (weight_1 : vector) : vector :=
  vec_sub (matvec (take_rows Phi source_states) weight_1)
          (take_entries Psi source_states task).

(** Lines 279-285. *)
Definition gradient_of (weight_2 : vector) (main_batch_size d : nat)
  (error : vector) : matrix :=
  let gradient := reshape (tile weight_2 main_batch_size) main_batch_size d in
  mul_rows gradient error.

(** Lines 291-292. *)
Definition sgd_update (Phi : matrix) (source_states : list nat)
  (learning_rate : float) (gradient : matrix) : matrix :=
  at_set Phi source_states
    (mat_sub (take_rows Phi source_states) (scale learning_rate gradient)).

(** Lines 294-298: the update of the explicit weight matrix. *)
Definition explicit_weight_update (Phi explicit_weight_matrix : matrix)
  (source_states : list nat) (task : nat) (learning_rate : float)
  (error : vector) : result matrix :=
  let weight_gradient := matvec (transpose (take_rows Phi source_states)) error in
  let expanded_gradient := expand_dims weight_gradient in
  isub_columns explicit_weight_matrix task (scale learning_rate expanded_gradient).

(** [_train_step], lines 163-305. *)
Definition _train_step (Phi Psi explicit_weight_matrix : matrix)
  (estimated_feature_norm : option float) (learning_rate : float) (k : key)
  (method : string) (lissa_kappa : float)
  (covariance_batch_size main_batch_size weight_batch_size : nat)
  (estimate_feature_norm : bool) : result (step_output key) :=
  let num_states := nrows Phi in
  let d := ncols Phi in
  let num_tasks := ncols Psi in
  let '(source_states, k) := draw_states num_states main_batch_size k in
  let '(task, k) := draw_states num_tasks 1 k in
  let* estimated_feature_norm :=
    update_feature_norm Phi source_states estimated_feature_norm method
      estimate_feature_norm in
  let* task := the_index task in
  let* '(weight_1, weight_2, k) :=
    weight_vectors Phi Psi explicit_weight_matrix task k method lissa_kappa
      covariance_batch_size weight_batch_size in
  let error := estimated_error Phi Psi source_states task weight_1 in
  let gradient := gradient_of weight_2 main_batch_size d error in
  let Phi := sgd_update Phi source_states learning_rate gradient in
  let* _explicit_weight_matrix :=
    (if method =? "explicit" then
       explicit_weight_update Phi explicit_weight_matrix source_states task
         learning_rate error
     else Ok explicit_weight_matrix) in
  Ok {| out_Phi := Phi;
        out_estimated_feature_norm := estimated_feature_norm;
        out_key := k;
        out_gradient := gradient |}.

End TrainStep.

(** ** Metrics *)

(** A metrics dictionary, in insertion order. *)
Definition metrics : Type := list (string * float).

(** [m |= {name: v}] *)
Fixpoint dict_set (m : metrics) (name : string) (v : float) : metrics :=
  match m with
  | [] => [(name, v)]
  | (n, x) :: m' => if n =? name then (n, v) :: m' else (n, x) :: dict_set m' name v
  end.


(** [jnp.trace] *)
Definition trace (M : matrix) : float :=
  fold_left (fun acc i => (acc + nth i (nth i M []) 0)%float)
            (seq 0 (Nat.min (nrows M) (ncols M))) 0%float.

(** [jnp.squeeze] of an array that holds one scalar.  A metric that is not a
    scalar is refused when the metrics are written, in the same iteration. *)
Definition squeeze (M : matrix) : result float :=
  match concat M with
  | [x] => Ok x
  | _ => Raise TypeError
  end.

Section Metrics.
Context `{C : Collaborators}.

(** Lines 71-73. *)
Definition compute_optimal_subspace (Psi : matrix) (d : nat) : result matrix :=
  let* '(left_svd, _, _) := svd Psi in
  Ok (map (firstn d) left_svd).

(** Lines 76-83. *)
Definition compute_grassman_distance (Y1 Y2 : matrix) : result float :=
  let* '(Q1, _) := qr Y1 in
  let* '(Q2, _) := qr Y2 in
  let* '(_, sigma, _) := svd (matmul (transpose Q1) Q2) in
  let sigma := map round6 sigma in
  Ok (norm (map arccos sigma)).

(** Lines 86-94: only [LinAlgError] is caught. *)
Definition compute_cosine_similarity (Y1 Y2 : matrix) : result float :=
  match solve (matmul (transpose Y1) Y1) (matmul (transpose Y1) Y2) with
  | Ok projection_weights =>
      let projection := matmul Y1 projection_weights in
      Ok (mat_norm projection)
  | Raise LinAlgError => Ok nan
  | Raise e => Raise e
  end.

(** Lines 97-100. *)
Definition compute_normalized_dot_product (Y1 Y2 : matrix) : result float :=
  let* x := squeeze (map (map (fun x => (x / (mat_norm Y1 * mat_norm Y2))%float))
                         (matmul (transpose Y1) Y2)) in
  Ok (PrimFloat.abs x).

(** Lines 103-116: only [LinAlgError] is caught; [1 / d] divides Python
    integers. *)
Definition eigengame_subspace_distance (Phi optimal_subspace : matrix) : result float :=
  let d := ncols Phi in
  let U_star := matmul optimal_subspace (transpose optimal_subspace) in
  match svd Phi with
  | Ok (U_phi, _, _) =>
      let U_phi := map (firstn d) U_phi in
      let P_star := matmul U_phi (transpose U_phi) in
      if (d =? 0)%nat then Raise ZeroDivisionError
      else Ok (1 - 1 / of_nat d * trace (matmul U_star P_star))%float
  | Raise LinAlgError => Ok nan
  | Raise e => Raise e
  end.

(** Lines 119-154. *)
Definition compute_metrics (Phi optimal_subspace : matrix) : result metrics :=
  let feature_norm := (mat_norm Phi / of_nat (nrows Phi))%float in
  let* cosine_similarity := compute_cosine_similarity Phi optimal_subspace in
  let* eigengame := eigengame_subspace_distance Phi optimal_subspace in
  let metrics := [("cosine_similarity", cosine_similarity);
                  ("feature_norm", feature_norm);
                  ("eigengame_subspace_distance", eigengame)] in
  let d := ncols Phi in
  if (1 <? d)%nat then
    let* grassman_distance := compute_grassman_distance Phi optimal_subspace in
    Ok (dict_set metrics "grassman_distance" grassman_distance)
  else if (d =? 1)%nat then
    let* dot_product := compute_normalized_dot_product Phi optimal_subspace in
    Ok (dict_set metrics "dot_product" dot_product)
  else Ok metrics.

End Metrics.

(** ** The training loop *)

(** References to arrays.  The store also records what the loop hands to its
    two sinks: the metric writer and the checkpoint manager. *)
Abbreviation loc := nat.

Record store : Type := {
  arrays : list matrix;
  scalars : list (nat * metrics);
  checkpoints : list (nat * matrix);
}.

(** Computations of [train]: a result and the store left behind, also when an
    exception is raised. *)
Definition M (A : Type) : Type := store -> result A * store.

Definition ret {A : Type} (a : A) : M A := fun st => (Ok a, st).

Definition raise {A : Type} (e : exn) : M A := fun st => (Raise e, st).

Definition bind {A B : Type} (m : M A) (k : A -> M B) : M B :=
  fun st =>
    match m st with
    | (Ok a, st') => k a st'
    | (Raise e, st') => (Raise e, st')
    end.

Notation "'let!' x ':=' c1 'in' c2" := (bind c1 (fun x => c2))
  (at level 10, x name, c1 at level 100, c2 at level 200).
Notation "'let!' ' pat ':=' c1 'in' c2" :=
  (bind c1 (fun x => match x with pat => c2 end))
  (at level 10, pat pattern, c1 at level 100, c2 at level 200).
Notation "'do!' c1 'in' c2" := (bind c1 (fun _ => c2))
  (at level 10, c1 at level 100, c2 at level 200).

Definition lift {A : Type} (r : result A) : M A := fun st => (r, st).

(** A fresh array holding [v]. *)
Definition new_array (v : matrix) : M loc :=
  fun st =>
    (Ok (length (arrays st)),
     {| arrays := arrays st ++ [v];
        scalars := scalars st;
        checkpoints := checkpoints st |}).

(** The value of an array. *)
Definition read (l : loc) : M matrix :=
  fun st =>
    match arrays st !! l with
    | Some v => (Ok v, st)
    | None => (Raise DanglingReference, st)
    end.

(** [jnp.copy(a)] *)
Definition jnp_copy (l : loc) : M loc :=
  let! v := read l in new_array v.

(** [jnp.stack(arrays)] *)
Fixpoint jnp_stack (ls : list loc) : M (list matrix) :=
  match ls with
  | [] => ret []
  | l :: ls' =>
      let! v := read l in
      let! vs := jnp_stack ls' in
      ret (v :: vs)
  end.

(** [writer.write_scalars(step, metrics)] *)
Definition write_scalars (step : nat) (m : metrics) : M unit :=
  fun st =>
    (Ok tt,
     {| arrays := arrays st;
        scalars := scalars st ++ [(step, m)];
        checkpoints := checkpoints st |}).

(** [chkpt_manager.save((step, Phi))] *)
Definition chkpt_save (step : nat) (l : loc) : M unit :=
  let! v := read l in
  fun st =>
    (Ok tt,
     {| arrays := arrays st;
        scalars := scalars st;
        checkpoints := checkpoints st ++ [(step, v)] |}).

(** [range(lo, hi)] *)
Definition range (lo hi : nat) : list nat := seq lo (hi - lo).

(** [variable_kwargs]; [K] is the type of PRNG keys. *)
Record variable_kwargs (K : Type) : Type := {
  kw_Phi : loc;
  kw_estimated_feature_norm : option float;
  kw_key : K;
}.

Arguments kw_Phi {K} _.
Arguments kw_estimated_feature_norm {K} _.
Arguments kw_key {K} _.

(** [fixed_train_kwargs] *)
Record fixed_train_kwargs : Type := {
  kw_Psi : matrix;
  kw_explicit_weight_matrix : matrix;
  kw_learning_rate : float;
  kw_method : string;
  kw_lissa_kappa : float;
  kw_covariance_batch_size : nat;
  kw_main_batch_size : nat;
  kw_weight_batch_size : nat;
  kw_estimate_feature_norm : bool;
}.

Section Train.
Context `{C : Collaborators}.

(** Line 410: [_train_step] called on both dictionaries.  The jitted step
    reads its arguments and returns fresh arrays. *)
Definition call_train_step (fixed : fixed_train_kwargs) (vars : variable_kwargs key)
  : M (variable_kwargs key * matrix) :=
  let! Phi := read (kw_Phi vars) in
  let! out := lift (_train_step Phi (kw_Psi fixed) (kw_explicit_weight_matrix fixed)
                      (kw_estimated_feature_norm vars) (kw_learning_rate fixed)
                      (kw_key vars) (kw_method fixed) (kw_lissa_kappa fixed)
                      (kw_covariance_batch_size fixed) (kw_main_batch_size fixed)
                      (kw_weight_batch_size fixed) (kw_estimate_feature_norm fixed)) in
  let! Phi' := new_array (out_Phi out) in
  ret ({| kw_Phi := Phi';
          kw_estimated_feature_norm := out_estimated_feature_norm out;
          kw_key := out_key out |},
       out_gradient out).

(** Lines 410-422: one iteration of the loop.  The periodic hook saves
    [(step, Phi)] on every 5000th step; its callback reads the [Phi] that is
    bound when it is called. *)
Definition train_iteration (fixed : fixed_train_kwargs) (optimal_subspace : matrix)
  (step : nat) (state : variable_kwargs key * list loc)
  : M (variable_kwargs key * list loc) :=
  let '(variable_kwargs, Phis) := state in
  let! '(variable_kwargs, gradient) := call_train_step fixed variable_kwargs in
  let Phi := kw_Phi variable_kwargs in
  let! Phi_value := read Phi in
  let! metrics := lift (compute_metrics Phi_value optimal_subspace) in
  let metrics := dict_set metrics "grad_norm" (mat_norm gradient) in
  let metrics := dict_set metrics "frob_norm"
                   (outer_objective_mc Phi_value (kw_Psi fixed)) in
  do! write_scalars step metrics in
  let! snapshot := jnp_copy Phi in
  let Phis := Phis ++ [snapshot] in
  do! (if (step mod 5000 =? 0)%nat then chkpt_save step Phi else ret tt) in
  ret (variable_kwargs, Phis).

(** Lines 405-422: the loop over the steps. *)
Fixpoint train_loop (fixed : fixed_train_kwargs) (optimal_subspace : matrix)
  (steps : list nat) (state : variable_kwargs key * list loc)
  : M (variable_kwargs key * list loc) :=
  match steps with
  | [] => ret state
  | step :: steps' =>
      let! state := train_iteration fixed optimal_subspace step state in
      train_loop fixed optimal_subspace steps' state
  end.

(** [train], lines 308-424.  [Phi] is the caller's array. *)
Definition train (initial_step : nat) (Phi : loc) (Psi optimal_subspace : matrix)
  (num_epochs : nat) (learning_rate : float) (k : key) (method : string)
  (lissa_kappa : float) (optimizer : string)
  (covariance_batch_size main_batch_size weight_batch_size : nat)
  (estimate_feature_norm : bool) : M (list matrix) :=
  let! Phi := jnp_copy Phi in
  let! snapshot := jnp_copy Phi in
  let Phis := [snapshot] in
  let! Phi_value := read Phi in
  let d := ncols Phi_value in
  let num_tasks := ncols Psi in
  let estimated_feature_norm :=
    if estimate_feature_norm then Some (compute_max_feature_norm Phi_value)
    else None in
  let '(k, weight_key) := random_split k in
  let explicit_weight_matrix := random_normal weight_key d num_tasks in
  do! (if optimizer =? "sgd" then ret tt else raise AssertionError) in
  let fixed_train_kwargs :=
    {| kw_Psi := Psi;
       kw_explicit_weight_matrix := explicit_weight_matrix;
       kw_learning_rate := learning_rate;
       kw_method := method;
       kw_lissa_kappa := lissa_kappa;
       kw_covariance_batch_size := covariance_batch_size;
       kw_main_batch_size := main_batch_size;
       kw_weight_batch_size := weight_batch_size;
       kw_estimate_feature_norm := estimate_feature_norm |} in
  let variable_kwargs :=
    {| kw_Phi := Phi;
       kw_estimated_feature_norm := estimated_feature_norm;
       kw_key := k |} in
  let! '(_, Phis) :=
    train_loop fixed_train_kwargs optimal_subspace
      (range (initial_step + 1) (num_epochs + 1)) (variable_kwargs, Phis) in
  jnp_stack Phis.

End Train.

(** * Vocabulary of the statements *)

Section Vocabulary.
Context `{C : Collaborators}.

(** The methods the step dispatches on besides [explicit]. *)
Definition implicit_method (method : string) : bool :=
  (method =? "oracle") || (method =? "naive") || (method =? "naive++")
  || (method =? "lissa").

Definition known_method (method : string) : bool :=
  (method =? "explicit") || implicit_method method.

(** The step as [train] calls it. *)
Definition step_call (fixed : fixed_train_kwargs) (Phi : matrix)
  (efn : option float) (k : key) : result (step_output key) :=
  _train_step Phi (kw_Psi fixed) (kw_explicit_weight_matrix fixed) efn
    (kw_learning_rate fixed) k (kw_method fixed) (kw_lissa_kappa fixed)
    (kw_covariance_batch_size fixed) (kw_main_batch_size fixed)
    (kw_weight_batch_size fixed) (kw_estimate_feature_norm fixed).

(** The metrics one iteration writes. *)
Definition step_metrics (fixed : fixed_train_kwargs) (m : metrics)
  (out : step_output key) : metrics :=
  dict_set (dict_set m "grad_norm" (mat_norm (out_gradient out)))
    "frob_norm" (outer_objective_mc (out_Phi out) (kw_Psi fixed)).

(** The values the loop threads from step to step. *)
Definition step_state : Type := matrix * option float * key.

Definition one_step (fixed : fixed_train_kwargs) (s : step_state) : result step_state :=
  let '(Phi, efn, k) := s in
  let* out := step_call fixed Phi efn k in
  Ok (out_Phi out, out_estimated_feature_norm out, out_key out).

(** The state after [n] steps. *)
Fixpoint steps (fixed : fixed_train_kwargs) (n : nat) (s : step_state)
  : result step_state :=
  match n with
  | 0 => Ok s
  | S n' => let* s' := one_step fixed s in steps fixed n' s'
  end.

(** [Phi] after [n] steps. *)
Definition Phi_after (fixed : fixed_train_kwargs) (n : nat) (s : step_state)
  : option matrix :=
  match steps fixed n s with
  | Ok (Phi, _, _) => Some Phi
  | Raise _ => None
  end.

(** The state [train] starts its loop from, and the arguments it fixes. *)
Definition initial_state (Phi0 : matrix) (k : key) (est : bool) : step_state :=
  (Phi0,
   if est then Some (compute_max_feature_norm Phi0) else None,
   fst (random_split k)).

Definition initial_fixed (Phi0 Psi : matrix) (lr : float) (k : key)
  (method : string) (kappa : float) (cbs mbs wbs : nat) (est : bool)
  : fixed_train_kwargs :=
  {| kw_Psi := Psi;
     kw_explicit_weight_matrix :=
       random_normal (snd (random_split k)) (ncols Phi0) (ncols Psi);
     kw_learning_rate := lr;
     kw_method := method;
     kw_lissa_kappa := kappa;
     kw_covariance_batch_size := cbs;
     kw_main_batch_size := mbs;
     kw_weight_batch_size := wbs;
     kw_estimate_feature_norm := est |}.

(** The diagnostics of [Phi] can be computed after each of the first [n]
    steps from [s]. *)
Definition metrics_computable (fixed : fixed_train_kwargs) (opt : matrix)
  (n : nat) (s : step_state) : Prop :=
  forall j Phi, 1 <= j <= n -> Phi_after fixed j s = Some Phi ->
    exists m, compute_metrics Phi opt = Ok m.

End Vocabulary.

(** The store with one more array. *)
Definition with_array (st : store) (v : matrix) : store :=
  {| arrays := arrays st ++ [v];
     scalars := scalars st;
     checkpoints := checkpoints st |}.

(** The store only grows: a computation [preserves] the arrays when every
    array of the store it starts from is still there, unchanged, in the store
    it leaves. *)
Definition preserves {A : Type} (m : M A) : Prop :=
  forall st, arrays st `prefix_of` arrays (snd (m st)).




(** * A concrete set of collaborators

    A small deterministic sampler and linear algebra for feature dimension 1,
    on which the model runs.  They stand in for [utils], [estimates] and the
    libraries, which are not part of the source file; the theorems hold for
    every [Collaborators]. *)

Module Reference.

(** The generator: a linear congruence on the key. *)
Definition lcg (s : Z) : Z := ((s * 1103515245 + 12345) mod 2147483648)%Z.

(** Modelled from the spec: [utils.draw_states] (4.1): [k] indices below [n],
    a function of the key, returned with the advanced key. *)
Fixpoint draw (n k : nat) (s : Z) : list nat * Z :=
  match k with
  | 0 => ([], s)
  | S k' =>
      let s' := lcg s in
      let '(l, s'') := draw n k' s' in
      (Z.to_nat (s' mod Z.of_nat n) :: l, s'')
  end.

(** The euclidean norm. *)
Definition norm2 (v : vector) : float := PrimFloat.sqrt (dot v v).

(** Modelled from the spec: [utils.compute_max_feature_norm] (6): the largest
    norm of a row. *)
Definition max_feature_norm (features : matrix) : float :=
  fold_left (fun m r => if (m <? norm2 r)%float then norm2 r else m) features 0%float.

(** The inverse of a 1 x 1 matrix, 0 for the zero matrix. *)
Definition pinv1 (M : matrix) : matrix :=
  match M with
  | [[a]] => if (a =? 0)%float then [[0%float]] else [[(1 / a)%float]]
  | _ => M
  end.

(** Modelled from the spec: [estimates.naive_inverse_covariance_matrix] (4.2):
    the empirical Gram matrix of [J] sampled rows, inverted. *)
Definition naive_inverse (Phi : matrix) (s : Z) (J : nat) : matrix * Z :=
  let '(states, s) := draw (nrows Phi) J s in
  let rows := take_rows Phi states in
  (pinv1 (scale (1 / of_nat J)%float (matmul (transpose rows) rows)), s).

(** Modelled from the spec: [estimates.lissa_inverse_covariance_matrix] (4.2):
    a Neumann recursion [e <- 1 + (1 - kappa * phi^2) * e] over [J] sampled
    rows, scaled by [kappa]. *)
Definition lissa_inverse (Phi : matrix) (s : Z) (J : nat) (kappa : float)
  (prior : option float) : matrix * Z :=
  let '(states, s) := draw (nrows Phi) J s in
  let e := fold_left
             (fun e r => (1 + (1 - kappa * dot r r) * e)%float)
             (take_rows Phi states) 1%float in
  ([[(kappa * e)%float]], s).

(** [d * T] pseudo-random entries in [-1, 1). *)
Definition normal (s : Z) (d T : nat) : matrix :=
  map (fun i =>
         map (fun j =>
                (PrimFloat.of_uint63
                   (Uint63.of_Z ((lcg (s + Z.of_nat (i * T + j))) mod 2000)%Z) / 1000 - 1)%float)
             (seq 0 T))
      (seq 0 d).

(** The solution of a 1 x 1 system; the zero matrix is singular. *)
Definition solve1 (A B : matrix) : result matrix :=
  match A with
  | [[a]] => if (a =? 0)%float then Raise LinAlgError
             else Ok (map (map (fun x => (x / a)%float)) B)
  | _ => Raise OtherError
  end.

(** A matrix divided by its norm: the left singular vector, and the
    orthonormal factor, of a single column. *)
Definition normalise (M : matrix) : matrix :=
  map (map (fun x => (x / norm2 (concat M))%float)) M.

#[export, refine] Instance collaborators : Collaborators := {|
  key := Z;
  draw_states := draw;
  draw_states_length := _;
  compute_max_feature_norm := max_feature_norm;
  outer_objective_mc := fun Phi Psi =>
    norm2 (concat (mat_sub (matmul (matmul Phi (transpose Phi)) Psi) Psi));
  naive_inverse_covariance_matrix := naive_inverse;
  lissa_inverse_covariance_matrix := lissa_inverse;
  random_split := fun s => (lcg s, lcg (lcg s));
  random_normal := normal;
  pinv := pinv1;
  norm := norm2;
  solve := solve1;
  svd := fun M => Ok (normalise M, [norm2 (concat M)], [[1%float]]);
  qr := fun M => Ok (normalise M, [[norm2 (concat M)]]);
  arccos := fun x => PrimFloat.sqrt (2 * (1 - x))%float;
  round6 := fun x => x;
|}.
Proof.
  intros n k. induction k as [|k IH]; intros s; simpl; [reflexivity|].
  specialize (IH (lcg s)). destruct (draw n k (lcg s)) as [l s'']. simpl in *.
  now rewrite IH.
Defined.

(** Three states, one feature, two tasks. *)
Definition Phi0 : matrix := [[1%float]; [2%float]; [0.5%float]].
Definition Psi0 : matrix := [[1%float; 0%float]; [0%float; 1%float]; [1%float; 1%float]].
Definition W0 : matrix := [[0.5%float; 0.25%float]].

(** A unit column, as the optimal subspace. *)
Definition optimal_subspace0 : matrix := [[0.6%float]; [0.8%float]; [0%float]].

(** The caller's store: one array, the initial [Phi]. *)
Definition store0 : store := {| arrays := [Phi0]; scalars := []; checkpoints := [] |}.

(** [train] and [_train_step] on these inputs. *)
Definition run (initial_step num_epochs : nat) (method optimizer : string)
  : result (list matrix) * store :=
  train (C := collaborators) initial_step 0 Psi0 optimal_subspace0 num_epochs
    0.1%float 42%Z method 0.9%float optimizer 4 2 3 true store0.

Definition step (method : string) : result (step_output Z) :=
  _train_step (C := collaborators) Phi0 Psi0 W0 (Some 2%float) 0.1%float 42%Z method
    0.9%float 4 2 3 true.

End Reference.

(** * Properties *)

(** ** Arrays *)

Lemma at_set_length (states : list nat) (M rows : matrix) :
  length (at_set M states rows) = length M.
Proof.
  unfold at_set. revert M rows.
  induction states as [|s states IH]; intros M rows; [reflexivity|].
  destruct rows as [|r rows]; [reflexivity|]. simpl.
  rewrite IH. apply length_insert.
Qed.

(** A scatter leaves every row alone whose index it does not name. *)
Lemma at_set_frame (states : list nat) (M rows : matrix) (i : nat) :
  i ∉ states -> at_set M states rows !! i = M !! i.
Proof.
  unfold at_set. revert M rows.
  induction states as [|s states IH]; intros M rows Hi; [reflexivity|].
  destruct rows as [|r rows]; [reflexivity|]. simpl.
  apply not_elem_of_cons in Hi as [Hne Hi].
  rewrite IH by exact Hi.
  apply list_lookup_insert_ne. congruence.
Qed.

(** When the row written at a state is a function of that state, repeated
    states write the same row, and the order of the writes does not matter. *)
Lemma at_set_map (f : nat -> vector) (states : list nat) (M : matrix) (s : nat) :
  s ∈ states -> s < length M ->
  at_set M states (map f states) !! s = Some (f s).
Proof.
  revert M. induction states as [|a states IH]; intros M Hin Hlt.
  - inversion Hin.
  - change (at_set M (a :: states) (map f (a :: states)))
      with (at_set (<[a := f a]> M) states (map f states)).
    destruct (decide (s ∈ states)) as [Hs|Hs].
    + apply IH; [exact Hs|]. now rewrite length_insert.
    + apply elem_of_cons in Hin as [->|Hin]; [|contradiction].
      rewrite at_set_frame by exact Hs.
      now apply list_lookup_insert_eq.
Qed.

Lemma get_clamp_lookup {A : Type} (l : list A) (i : nat) (d x : A) :
  l !! i = Some x -> get_clamp l i d = x.
Proof.
  intros H. unfold get_clamp.
  pose proof (lookup_lt_Some _ _ _ H) as Hlt.
  replace (Nat.min i (length l - 1)) with i by lia.
  apply nth_lookup_Some with (d := d) in H. exact H.
Qed.

Lemma combine_map_same {A B D : Type} (f : A -> B) (g : A -> D) (l : list A) :
  combine (map f l) (map g l) = map (fun x => (f x, g x)) l.
Proof. induction l as [|x l IH]; simpl; [reflexivity|now rewrite IH]. Qed.

(** Tiling a vector of length [d] and reshaping to [(m, d)] gives [m] rows,
    each the vector. *)
Lemma reshape_tile (w : vector) (m d : nat) :
  length w = d -> reshape (tile w m) m d = replicate m w.
Proof.
  intros Hd. induction m as [|m IH]; [reflexivity|]. simpl.
  rewrite take_app_length' by (symmetry; exact Hd).
  rewrite drop_app_length' by (symmetry; exact Hd).
  now rewrite IH.
Qed.

Lemma mul_rows_replicate {A : Type} (w : vector) (err : A -> float) (states : list A) :
  mul_rows (replicate (length states) w) (map err states)
  = map (fun s => map (fun x => (x * err s)%float) w) states.
Proof.
  unfold mul_rows. induction states as [|s states IH]; [reflexivity|].
  simpl. now rewrite IH.
Qed.

(** ** The training step *)

Section StepProperties.
Context `{C : Collaborators}.

(** What a step that returns has computed. *)
Lemma train_step_inv (Phi Psi W : matrix) (efn : option float) (lr : float)
  (k : key) (method : string) (kappa : float) (cbs mbs wbs : nat) (est : bool)
  (out : step_output key) :
  _train_step Phi Psi W efn lr k method kappa cbs mbs wbs est = Ok out ->
  let source_states := fst (draw_states (nrows Phi) mbs k) in
  let k1 := snd (draw_states (nrows Phi) mbs k) in
  let k2 := snd (draw_states (ncols Psi) 1 k1) in
  exists efn' task w1 w2 k',
    update_feature_norm Phi source_states efn method est = Ok efn' /\
    the_index (fst (draw_states (ncols Psi) 1 k1)) = Ok task /\
    weight_vectors Phi Psi W task k2 method kappa cbs wbs = Ok (w1, w2, k') /\
    (method =? "explicit") = false /\
    let gradient :=
      gradient_of w2 mbs (ncols Phi) (estimated_error Phi Psi source_states task w1) in
    out = {| out_Phi := sgd_update Phi source_states lr gradient;
             out_estimated_feature_norm := efn';
             out_key := k';
             out_gradient := gradient |}.
Proof.
  unfold _train_step. intros H. cbn zeta.
  destruct (draw_states (nrows Phi) mbs k) as [source_states k1]. cbn [fst snd].
  destruct (draw_states (ncols Psi) 1 k1) as [task k2]. cbn [fst snd].
  destruct (update_feature_norm Phi source_states efn method est) as [efn'|e]
    eqn:Hefn; [|discriminate H].
  destruct (the_index task) as [t|e] eqn:Htask; [|discriminate H].
  cbn [rbind] in H.
  destruct (weight_vectors Phi Psi W t k2 method kappa cbs wbs) as [[[w1 w2] k']|e]
    eqn:Hw; [|discriminate H].
  cbn [rbind] in H.
  destruct (method =? "explicit") eqn:Hm.
  - discriminate H.
  - cbn [rbind] in H. injection H as <-.
    exists efn', t, w1, w2, k'. repeat split; assumption || reflexivity.
Qed.

(** C1.  One training step changes [Phi] only at the rows named by the sampled
    source states: for every method, the array built by the sparse update
    (and so the [Phi] a step returns) has, at every index that is not a
    sampled source state, the row [Phi] had there, and has as many rows as
    [Phi]. *)
Theorem train_step_frame (Phi Psi W : matrix) (efn : option float) (lr : float)
  (k : key) (method : string) (kappa : float) (cbs mbs wbs : nat) (est : bool)
  (i : nat) :
  i ∉ fst (draw_states (nrows Phi) mbs k) ->
  (forall gradient : matrix,
     sgd_update Phi (fst (draw_states (nrows Phi) mbs k)) lr gradient !! i = Phi !! i) /\
  (forall out : step_output key,
     _train_step Phi Psi W efn lr k method kappa cbs mbs wbs est = Ok out ->
     out_Phi out !! i = Phi !! i /\ nrows (out_Phi out) = nrows Phi).
Proof.
  intros Hi. split.
  - intros gradient. unfold sgd_update. now apply at_set_frame.
  - intros out Hout.
    apply train_step_inv in Hout as (efn' & task & w1 & w2 & k' & _ & _ & _ & _ & ->).
    cbn [out_Phi]. unfold sgd_update, nrows. split.
    + now apply at_set_frame.
    + apply at_set_length.
Qed.

(** C3.  For the oracle method both weight vectors are the same vector: the
    one computed from [pinv(Phi^T Phi) * num_states] over all the states
    [0 .. num_states - 1]; the key comes back as it went in. *)
Theorem oracle_weights_identical (Phi Psi W : matrix) (task : nat) (k : key)
  (kappa : float) (cbs wbs : nat) :
  let covariance := scale_r (pinv (matmul (transpose Phi) Phi)) (of_nat (nrows Phi)) in
  let weight := weight_estimate covariance Phi Psi (arange (nrows Phi)) task in
  implicit_estimates Phi k "oracle" kappa cbs wbs
  = (Some covariance, Some covariance,
     Some (arange (nrows Phi)), Some (arange (nrows Phi)), k) /\
  weight_vectors Phi Psi W task k "oracle" kappa cbs wbs = Ok (weight, weight, k).
Proof.
  intros covariance weight. split.
  - reflexivity.
  - unfold weight_vectors. change ("oracle" =? "explicit") with false.
    cbv iota. reflexivity.
Qed.

(** C6.  The naive method draws one covariance estimate and one sample of
    weight states and uses them for both weight vectors; naive++ calls the
    naive estimator twice, the second call on the key the first returned, and
    then draws two samples of weight states, one for each weight vector. *)
Theorem naive_sampling (Phi Psi W : matrix) (task : nat) (k : key)
  (kappa : float) (cbs wbs : nat) :
  (let est1 := naive_inverse_covariance_matrix Phi k cbs in
   let ws1 := draw_states (nrows Phi) wbs (snd est1) in
   let weight := weight_estimate (fst est1) Phi Psi (fst ws1) task in
   implicit_estimates Phi k "naive" kappa cbs wbs
   = (Some (fst est1), Some (fst est1), Some (fst ws1), Some (fst ws1), snd ws1) /\
   weight_vectors Phi Psi W task k "naive" kappa cbs wbs
   = Ok (weight, weight, snd ws1)) /\
  (let est1 := naive_inverse_covariance_matrix Phi k cbs in
   let est2 := naive_inverse_covariance_matrix Phi (snd est1) cbs in
   let ws1 := draw_states (nrows Phi) wbs (snd est2) in
   let ws2 := draw_states (nrows Phi) wbs (snd ws1) in
   implicit_estimates Phi k "naive++" kappa cbs wbs
   = (Some (fst est1), Some (fst est2), Some (fst ws1), Some (fst ws2), snd ws2) /\
   weight_vectors Phi Psi W task k "naive++" kappa cbs wbs
   = Ok (weight_estimate (fst est1) Phi Psi (fst ws1) task,
         weight_estimate (fst est2) Phi Psi (fst ws2) task,
         snd ws2)).
Proof.
  split.
  - intros est1 ws1 weight.
    assert (implicit_estimates Phi k "naive" kappa cbs wbs
            = (Some (fst est1), Some (fst est1), Some (fst ws1), Some (fst ws1), snd ws1))
      as Hest.
    { unfold implicit_estimates, ws1, est1.
      change ("naive" =? "naive") with true. cbv iota.
      destruct (naive_inverse_covariance_matrix Phi k cbs) as [c k1]. cbn [fst snd].
      destruct (draw_states (nrows Phi) wbs k1) as [ws k2]. reflexivity. }
    split; [exact Hest|].
    unfold weight_vectors. rewrite Hest. reflexivity.
  - intros est1 est2 ws1 ws2.
    assert (implicit_estimates Phi k "naive++" kappa cbs wbs
            = (Some (fst est1), Some (fst est2), Some (fst ws1), Some (fst ws2), snd ws2))
      as Hest.
    { unfold implicit_estimates, ws2, ws1, est2, est1.
      change ("naive++" =? "naive") with false.
      change ("naive++" =? "naive++") with true. cbv iota.
      destruct (naive_inverse_covariance_matrix Phi k cbs) as [c1 k1]. cbn [fst snd].
      destruct (naive_inverse_covariance_matrix Phi k1 cbs) as [c2 k2]. cbn [fst snd].
      destruct (draw_states (nrows Phi) wbs k2) as [w1 k3]. cbn [fst snd].
      destruct (draw_states (nrows Phi) wbs k3) as [w2 k4]. reflexivity. }
    split; [exact Hest|].
    unfold weight_vectors. rewrite Hest. reflexivity.
Qed.

Lemma implicit_method_cases (method : string) :
  implicit_method method = true ->
  method = "oracle" \/ method = "naive" \/ method = "naive++" \/ method = "lissa".
Proof.
  unfold implicit_method. intros H.
  repeat (apply orb_true_iff in H as [H|H]);
    apply String.eqb_eq in H; subst; tauto.
Qed.

Lemma implicit_method_not_explicit (method : string) :
  implicit_method method = true -> (method =? "explicit") = false.
Proof.
  intros H. apply implicit_method_cases in H as [-> | [-> | [-> | ->]]]; reflexivity.
Qed.

(** The sampler's contract makes the task draw an index array of shape (1,). *)
Lemma the_index_draw (n : nat) (k : key) :
  exists t, fst (draw_states n 1 k) = [t] /\ the_index (fst (draw_states n 1 k)) = Ok t.
Proof.
  pose proof (draw_states_length n 1 k) as Hlen.
  destruct (fst (draw_states n 1 k)) as [|t [|t' l]]; try discriminate Hlen.
  exists t. split; reflexivity.
Qed.

(** The implicit methods always produce their two weight vectors. *)
Lemma implicit_weights_total (Phi Psi W : matrix) (task : nat) (k : key)
  (method : string) (kappa : float) (cbs wbs : nat) :
  implicit_method method = true ->
  exists w1 w2 k', weight_vectors Phi Psi W task k method kappa cbs wbs = Ok (w1, w2, k').
Proof.
  intros H. unfold weight_vectors.
  rewrite (implicit_method_not_explicit _ H). unfold implicit_estimates.
  apply implicit_method_cases in H as [-> | [-> | [-> | ->]]]; cbn [String.eqb Ascii.eqb Bool.eqb];
    cbv iota.
  - eauto.
  - destruct (naive_inverse_covariance_matrix Phi k cbs) as [c1 k1].
    destruct (draw_states (nrows Phi) wbs k1) as [ws1 k2]. eauto.
  - destruct (naive_inverse_covariance_matrix Phi k cbs) as [c1 k1].
    destruct (naive_inverse_covariance_matrix Phi k1 cbs) as [c2 k2].
    destruct (draw_states (nrows Phi) wbs k2) as [ws1 k3].
    destruct (draw_states (nrows Phi) wbs k3) as [ws2 k4]. eauto.
  - destruct (lissa_inverse_covariance_matrix Phi k cbs kappa None) as [c1 k1].
    destruct (lissa_inverse_covariance_matrix Phi k1 cbs kappa None) as [c2 k2].
    destruct (draw_states (nrows Phi) wbs k2) as [ws1 k3].
    destruct (draw_states (nrows Phi) wbs k3) as [ws2 k4]. eauto.
Qed.

(** A step of an implicit method returns, as long as the running estimate of
    the feature norm is present whenever its estimation is enabled. *)
Lemma train_step_total (Phi Psi W : matrix) (efn : option float) (lr : float)
  (k : key) (method : string) (kappa : float) (cbs mbs wbs : nat) (est : bool) :
  implicit_method method = true ->
  (est = true -> is_Some efn) ->
  exists out,
    _train_step Phi Psi W efn lr k method kappa cbs mbs wbs est = Ok out /\
    (est = true -> is_Some (out_estimated_feature_norm out)).
Proof.
  intros Hm Hefn. unfold _train_step.
  destruct (draw_states (nrows Phi) mbs k) as [source_states k1].
  destruct (the_index_draw (ncols Psi) k1) as (t & _ & Ht).
  destruct (draw_states (ncols Psi) 1 k1) as [task k2]. cbn [fst] in Ht.
  assert (exists efn', update_feature_norm Phi source_states efn method est = Ok efn'
                       /\ (est = true -> is_Some efn')) as (efn' & -> & Hefn').
  { unfold update_feature_norm.
    destruct ((method =? "lissa") && est) eqn:Hb.
    - apply andb_true_iff in Hb as [_ ->].
      destruct (Hefn eq_refl) as [e ->]. eexists. split; [reflexivity|]. eauto.
    - eauto. }
  rewrite Ht. cbn [rbind].
  destruct (implicit_weights_total Phi Psi W t k2 method kappa cbs wbs Hm)
    as (w1 & w2 & k' & ->).
  cbn [rbind]. rewrite (implicit_method_not_explicit _ Hm). cbn [rbind].
  eexists. split; [reflexivity|exact Hefn'].
Qed.

(** C4.  With method lissa and the estimation of the feature norm enabled, a
    step that receives the estimate [n0] returns [n0 + 0.01 * (m - n0)], where
    [m] is the maximal feature norm of the rows of the incoming [Phi] at the
    sampled source states; for every other method, and for lissa without the
    estimation, the step returns the estimate it received. *)
Theorem feature_norm_update (Phi Psi W : matrix) (n0 lr : float) (k : key)
  (kappa : float) (cbs mbs wbs : nat) :
  let m :=
    compute_max_feature_norm (take_rows Phi (fst (draw_states (nrows Phi) mbs k))) in
  (exists out,
     _train_step Phi Psi W (Some n0) lr k "lissa" kappa cbs mbs wbs true = Ok out /\
     out_estimated_feature_norm out = Some (n0 + 0.01 * (m - n0))%float) /\
  (forall (method : string) (est : bool) (efn : option float) (out : step_output key),
     (method =? "lissa") && est = false ->
     _train_step Phi Psi W efn lr k method kappa cbs mbs wbs est = Ok out ->
     out_estimated_feature_norm out = efn).
Proof.
  intros m. split.
  - destruct (train_step_total Phi Psi W (Some n0) lr k "lissa" kappa cbs mbs wbs true)
      as (out & Hout & _); [reflexivity|eauto|].
    exists out. split; [exact Hout|].
    apply train_step_inv in Hout as (efn' & t & w1 & w2 & k' & Hefn & _ & _ & _ & ->).
    cbn [out_estimated_feature_norm].
    unfold update_feature_norm in Hefn.
    change (("lissa" =? "lissa") && true) with true in Hefn. cbv iota zeta in Hefn.
    injection Hefn as <-. reflexivity.
  - intros method est efn out Hb Hout.
    apply train_step_inv in Hout as (efn' & t & w1 & w2 & k' & Hefn & _ & _ & _ & ->).
    cbn [out_estimated_feature_norm].
    unfold update_feature_norm in Hefn. rewrite Hb in Hefn.
    now injection Hefn as <-.
Qed.

Lemma estimated_error_map (Phi Psi : matrix) (source_states : list nat) (task : nat)
  (w1 : vector) :
  estimated_error Phi Psi source_states task w1
  = map (fun s => (dot (get_clamp Phi s []) w1 - entry Psi s task)%float) source_states.
Proof.
  unfold estimated_error, vec_sub, matvec, take_rows, take_entries.
  rewrite map_map, combine_map_same, map_map. reflexivity.
Qed.

Lemma gradient_of_map (Phi Psi : matrix) (source_states : list nat) (task : nat)
  (w1 w2 : vector) :
  length w2 = ncols Phi ->
  gradient_of w2 (length source_states) (ncols Phi)
    (estimated_error Phi Psi source_states task w1)
  = map (fun s =>
           map (fun x => (x * (dot (get_clamp Phi s []) w1 - entry Psi s task))%float) w2)
        source_states.
Proof.
  intros Hw. unfold gradient_of. cbv zeta.
  rewrite reshape_tile by exact Hw.
  rewrite estimated_error_map. apply mul_rows_replicate.
Qed.

Lemma sgd_update_map (Phi Psi : matrix) (source_states : list nat) (task : nat)
  (w1 w2 : vector) (lr : float) :
  length w2 = ncols Phi ->
  sgd_update Phi source_states lr
    (gradient_of w2 (length source_states) (ncols Phi)
       (estimated_error Phi Psi source_states task w1))
  = at_set Phi source_states
      (map (fun s =>
              vec_sub (get_clamp Phi s [])
                (map (fun x => (lr * x)%float)
                   (map (fun x =>
                           (x * (dot (get_clamp Phi s []) w1 - entry Psi s task))%float)
                        w2)))
           source_states).
Proof.
  intros Hw. unfold sgd_update. rewrite gradient_of_map by exact Hw.
  unfold mat_sub, scale, take_rows. f_equal.
  rewrite map_map, combine_map_same, map_map. reflexivity.
Qed.

(** C5.  In a training step the residual of the i-th sampled source state
    [s] is [Phi[s] . weight_1 - Psi[s, task]], row i of the gradient is
    [weight_2] times that residual, and the sparse update leaves
    [Phi[s] - learning_rate * gradient_i] at row [s]; this is what a step
    that returns hands back as its gradient and its [Phi]. *)
Theorem sgd_update_rows (Phi Psi W : matrix) (efn : option float) (lr : float)
  (k : key) (method : string) (kappa : float) (cbs mbs wbs : nat) (est : bool)
  (task : nat) (w1 w2 : vector) (k' : key) (i s : nat) (row : vector) :
  let source_states := fst (draw_states (nrows Phi) mbs k) in
  let k1 := snd (draw_states (nrows Phi) mbs k) in
  let k2 := snd (draw_states (ncols Psi) 1 k1) in
  the_index (fst (draw_states (ncols Psi) 1 k1)) = Ok task ->
  weight_vectors Phi Psi W task k2 method kappa cbs wbs = Ok (w1, w2, k') ->
  length w2 = ncols Phi ->
  source_states !! i = Some s ->
  Phi !! s = Some row ->
  let error := estimated_error Phi Psi source_states task w1 in
  let gradient := gradient_of w2 mbs (ncols Phi) error in
  let error_i := (dot row w1 - entry Psi s task)%float in
  let gradient_i := map (fun x => (x * error_i)%float) w2 in
  let updated_row := vec_sub row (map (fun x => (lr * x)%float) gradient_i) in
  error !! i = Some error_i /\
  gradient !! i = Some gradient_i /\
  sgd_update Phi source_states lr gradient !! s = Some updated_row /\
  (forall out : step_output key,
     _train_step Phi Psi W efn lr k method kappa cbs mbs wbs est = Ok out ->
     out_gradient out !! i = Some gradient_i /\
     out_Phi out !! s = Some updated_row).
Proof.
  intros source_states k1 k2 Htask Hweights Hw Hi Hs.
  intros error gradient error_i gradient_i updated_row.
  assert (length source_states = mbs) as Hlen by apply draw_states_length.
  pose proof (get_clamp_lookup Phi s [] row Hs) as Hrow.
  assert (error !! i = Some error_i) as Herror.
  { unfold error. rewrite estimated_error_map, list_lookup_fmap, Hi.
    cbn. now rewrite Hrow. }
  assert (gradient !! i = Some gradient_i) as Hgradient.
  { unfold gradient, error. rewrite <- Hlen.
    rewrite gradient_of_map by exact Hw.
    rewrite list_lookup_fmap, Hi. cbn. now rewrite Hrow. }
  assert (sgd_update Phi source_states lr gradient !! s = Some updated_row) as HPhi.
  { unfold gradient, error. rewrite <- Hlen.
    rewrite sgd_update_map by exact Hw.
    rewrite (at_set_map
               (fun s => vec_sub (get_clamp Phi s [])
                  (map (fun x => (lr * x)%float)
                     (map (fun x =>
                             (x * (dot (get_clamp Phi s []) w1 - entry Psi s task))%float)
                          w2)))).
    - now rewrite Hrow.
    - apply list_elem_of_lookup. eauto.
    - eapply lookup_lt_Some. exact Hs. }
  split; [exact Herror|]. split; [exact Hgradient|]. split; [exact HPhi|].
  intros out Hout.
  apply train_step_inv in Hout as (efn' & t & w1' & w2' & k'' & _ & Ht & Hwv & _ & ->).
  fold k1 in Ht. rewrite Htask in Ht. injection Ht as <-.
  fold k1 k2 in Hwv. rewrite Hweights in Hwv. injection Hwv as <- <- <-.
  split; [exact Hgradient|exact HPhi].
Qed.

End StepProperties.

(** ** The training loop *)

Lemma preserves_ret {A : Type} (a : A) : preserves (ret a).
Proof. intros st. reflexivity. Qed.

Lemma preserves_raise {A : Type} (e : exn) : preserves (@raise A e).
Proof. intros st. reflexivity. Qed.

Lemma preserves_lift {A : Type} (r : result A) : preserves (lift r).
Proof. intros st. reflexivity. Qed.

Lemma preserves_bind {A B : Type} (m : M A) (k : A -> M B) :
  preserves m -> (forall a, preserves (k a)) -> preserves (bind m k).
Proof.
  intros Hm Hk st. unfold bind. specialize (Hm st).
  destruct (m st) as [[a|e] st1]; cbn [snd] in *.
  - etransitivity; [exact Hm|apply Hk].
  - exact Hm.
Qed.

Lemma preserves_new_array (v : matrix) : preserves (new_array v).
Proof. intros st. cbn. now apply prefix_app_r. Qed.

Lemma preserves_read (l : loc) : preserves (read l).
Proof. intros st. unfold read. destruct (arrays st !! l); reflexivity. Qed.

Lemma preserves_jnp_copy (l : loc) : preserves (jnp_copy l).
Proof.
  apply preserves_bind; [apply preserves_read|intros v; apply preserves_new_array].
Qed.

Lemma preserves_write_scalars (step : nat) (m : metrics) :
  preserves (write_scalars step m).
Proof. intros st. reflexivity. Qed.

Lemma preserves_chkpt_save (step : nat) (l : loc) : preserves (chkpt_save step l).
Proof.
  apply preserves_bind; [apply preserves_read|intros v st; reflexivity].
Qed.

Lemma preserves_jnp_stack (ls : list loc) : preserves (jnp_stack ls).
Proof.
  induction ls as [|l ls IH]; cbn [jnp_stack]; [apply preserves_ret|].
  apply preserves_bind; [apply preserves_read|intros v].
  apply preserves_bind; [exact IH|intros vs; apply preserves_ret].
Qed.

Create HintDb preserves.

#[local] Hint Resolve preserves_ret preserves_raise preserves_lift preserves_new_array
  preserves_read preserves_jnp_copy preserves_write_scalars preserves_chkpt_save
  preserves_jnp_stack : preserves.

Ltac preserves_step :=
  first [ solve [auto with preserves]
        | apply preserves_bind; [|intros ?]
        | match goal with
          | |- preserves (match ?x with _ => _ end) => destruct x
          | |- preserves (if ?b then _ else _) => destruct b
          end ].

Section TrainProperties.
Context `{C : Collaborators}.

Lemma preserves_train_iteration (fixed : fixed_train_kwargs) (opt : matrix)
  (step : nat) (state : variable_kwargs key * list loc) :
  preserves (train_iteration fixed opt step state).
Proof.
  unfold train_iteration, call_train_step. destruct state as [vars Phis].
  repeat preserves_step.
Qed.

Lemma preserves_train_loop (fixed : fixed_train_kwargs) (opt : matrix)
  (steps : list nat) (state : variable_kwargs key * list loc) :
  preserves (train_loop fixed opt steps state).
Proof.
  revert state. induction steps as [|step steps IH]; intros state; cbn [train_loop].
  - apply preserves_ret.
  - apply preserves_bind; [apply preserves_train_iteration|exact IH].
Qed.

Lemma preserves_train (initial_step : nat) (Phi : loc) (Psi opt : matrix)
  (num_epochs : nat) (lr : float) (k : key) (method : string) (kappa : float)
  (optimizer : string) (cbs mbs wbs : nat) (est : bool) :
  preserves (train initial_step Phi Psi opt num_epochs lr k method kappa optimizer
               cbs mbs wbs est).
Proof.
  unfold train.
  repeat preserves_step; apply preserves_train_loop.
Qed.

End TrainProperties.

Lemma bind_Ok {A B : Type} (m : M A) (k : A -> M B) (st st1 : store) (a : A) :
  m st = (Ok a, st1) -> bind m k st = k a st1.
Proof. intros H. unfold bind. now rewrite H. Qed.

Lemma bind_Raise {A B : Type} (m : M A) (k : A -> M B) (st st1 : store) (e : exn) :
  m st = (Raise e, st1) -> bind m k st = (Raise e, st1).
Proof. intros H. unfold bind. now rewrite H. Qed.

Lemma bind_inv_Ok {A B : Type} (m : M A) (k : A -> M B) (st st' : store) (b : B) :
  bind m k st = (Ok b, st') ->
  exists a st1, m st = (Ok a, st1) /\ k a st1 = (Ok b, st').
Proof.
  unfold bind. destruct (m st) as [[a|e] st1]; intros H; [eauto|discriminate H].
Qed.

Lemma read_Ok (l : loc) (st : store) (v : matrix) :
  arrays st !! l = Some v -> read l st = (Ok v, st).
Proof. intros H. unfold read. now rewrite H. Qed.

Lemma read_inv_Ok (l : loc) (st st' : store) (v : matrix) :
  read l st = (Ok v, st') -> arrays st !! l = Some v /\ st' = st.
Proof.
  unfold read. destruct (arrays st !! l); intros H; inversion H; auto.
Qed.

Lemma jnp_copy_Ok (l : loc) (st : store) (v : matrix) :
  arrays st !! l = Some v ->
  jnp_copy l st = (Ok (length (arrays st)), with_array st v).
Proof.
  intros H. unfold jnp_copy.
  rewrite (bind_Ok _ _ _ _ _ (read_Ok _ _ _ H)). reflexivity.
Qed.

Lemma jnp_copy_inv_Ok (l l' : loc) (st st' : store) :
  jnp_copy l st = (Ok l', st') ->
  exists v, arrays st !! l = Some v /\ l' = length (arrays st) /\ st' = with_array st v.
Proof.
  unfold jnp_copy. intros H.
  apply bind_inv_Ok in H as (v & st1 & Hread & Hnew).
  apply read_inv_Ok in Hread as [Hv ->].
  inversion Hnew. eauto.
Qed.

Lemma lookup_with_array_new (st : store) (v : matrix) :
  arrays (with_array st v) !! length (arrays st) = Some v.
Proof. cbn. now apply list_lookup_middle. Qed.

Lemma lookup_with_array_old (st : store) (v w : matrix) (l : loc) :
  arrays st !! l = Some w -> arrays (with_array st v) !! l = Some w.
Proof. intros H. cbn. now apply lookup_app_l_Some. Qed.

(** Reading back references whose arrays are known. *)
Lemma jnp_stack_Ok (ls : list loc) (vs : list matrix) (st : store) :
  Forall2 (fun l v => arrays st !! l = Some v) ls vs ->
  jnp_stack ls st = (Ok vs, st).
Proof.
  induction 1 as [|l v ls vs Hl _ IH]; [reflexivity|].
  cbn [jnp_stack]. rewrite (bind_Ok _ _ _ _ _ (read_Ok _ _ _ Hl)).
  rewrite (bind_Ok _ _ _ _ _ IH). reflexivity.
Qed.

Section TrainRuns.
Context `{C : Collaborators}.

Lemma call_train_step_Ok (fixed : fixed_train_kwargs) (vars : variable_kwargs key)
  (st : store) (P : matrix) (out : step_output key) :
  arrays st !! kw_Phi vars = Some P ->
  step_call fixed P (kw_estimated_feature_norm vars) (kw_key vars) = Ok out ->
  call_train_step fixed vars st
  = (Ok ({| kw_Phi := length (arrays st);
            kw_estimated_feature_norm := out_estimated_feature_norm out;
            kw_key := out_key out |}, out_gradient out),
     with_array st (out_Phi out)).
Proof.
  intros HP Hstep. unfold step_call in Hstep. unfold call_train_step.
  rewrite (bind_Ok _ _ _ _ _ (read_Ok _ _ _ HP)).
  unfold bind at 1. unfold lift. rewrite Hstep. reflexivity.
Qed.

(** One iteration that meets no exception: the step's [Phi] is stored in a
    fresh array, its copy is appended to the trajectory, and the metrics are
    written. *)
Lemma train_iteration_Ok (fixed : fixed_train_kwargs) (opt : matrix) (step : nat)
  (vars : variable_kwargs key) (Phis : list loc) (st : store) (P : matrix)
  (out : step_output key) (m : metrics) :
  arrays st !! kw_Phi vars = Some P ->
  step_call fixed P (kw_estimated_feature_norm vars) (kw_key vars) = Ok out ->
  compute_metrics (out_Phi out) opt = Ok m ->
  exists st',
    train_iteration fixed opt step (vars, Phis) st
    = (Ok ({| kw_Phi := length (arrays st);
              kw_estimated_feature_norm := out_estimated_feature_norm out;
              kw_key := out_key out |},
           Phis ++ [S (length (arrays st))]), st') /\
    arrays st' = arrays st ++ [out_Phi out; out_Phi out] /\
    scalars st' = scalars st ++ [(step, step_metrics fixed m out)].
Proof.
  intros HP Hstep Hm. unfold train_iteration.
  rewrite (bind_Ok _ _ _ _ _ (call_train_step_Ok _ _ _ _ _ HP Hstep)).
  cbn [kw_Phi].
  rewrite (bind_Ok _ _ _ _ _ (read_Ok _ _ _ (lookup_with_array_new st (out_Phi out)))).
  unfold bind at 1. unfold lift. rewrite Hm.
  unfold bind at 1. unfold write_scalars.
  match goal with |- context [bind (jnp_copy _) _ ?s] => set (st2 := s) end.
  assert (arrays st2 !! length (arrays st) = Some (out_Phi out)) as H2.
  { apply (lookup_with_array_new st). }
  rewrite (bind_Ok _ _ _ _ _ (jnp_copy_Ok _ _ _ H2)).
  assert (length (arrays st2) = S (length (arrays st))) as Hlen.
  { unfold st2. cbn. rewrite length_app. cbn. lia. }
  rewrite Hlen.
  destruct (step mod 5000 =? 0)%nat.
  - assert (arrays (with_array st2 (out_Phi out)) !! length (arrays st)
            = Some (out_Phi out)) as H3.
    { now apply lookup_with_array_old. }
    unfold chkpt_save.
    unfold bind at 1. rewrite (bind_Ok _ _ _ _ _ (read_Ok _ _ _ H3)).
    eexists. split; [reflexivity|]. cbn. rewrite <- app_assoc. split; reflexivity.
  - unfold bind at 1. unfold ret.
    eexists. split; [reflexivity|]. cbn. rewrite <- app_assoc. split; reflexivity.
Qed.

Lemma train_iteration_inv_Ok (fixed : fixed_train_kwargs) (opt : matrix) (step : nat)
  (vars : variable_kwargs key) (Phis : list loc) (st st' : store)
  (r : variable_kwargs key * list loc) :
  train_iteration fixed opt step (vars, Phis) st = (Ok r, st') ->
  exists P out m,
    arrays st !! kw_Phi vars = Some P /\
    step_call fixed P (kw_estimated_feature_norm vars) (kw_key vars) = Ok out /\
    compute_metrics (out_Phi out) opt = Ok m.
Proof.
  unfold train_iteration. intros H.
  apply bind_inv_Ok in H as ([vars1 gradient] & st1 & Hcall & H).
  unfold call_train_step in Hcall.
  apply bind_inv_Ok in Hcall as (P & st0 & Hread & Hcall).
  apply read_inv_Ok in Hread as [HP ->].
  apply bind_inv_Ok in Hcall as (out & st0 & Hlift & Hnew).
  unfold lift in Hlift. injection Hlift as Hstep ->.
  apply bind_inv_Ok in Hnew as (l & st2 & Hnew & Hret).
  unfold new_array in Hnew. injection Hnew as <- <-.
  unfold ret in Hret. injection Hret as <- <- <-.
  cbn [kw_Phi] in H.
  apply bind_inv_Ok in H as (Phi_value & st3 & Hread & H).
  apply read_inv_Ok in Hread as [HPhi ->].
  cbn [arrays] in HPhi.
  rewrite list_lookup_middle in HPhi by reflexivity. injection HPhi as <-.
  apply bind_inv_Ok in H as (m & st4 & Hlift & _).
  unfold lift in Hlift. injection Hlift as Hm _.
  exists P, out, m. repeat split; assumption.
Qed.

(** *** The loop against the plain iteration of the step *)

(** A loop of an implicit method whose diagnostics can be computed runs to
    its end: it appends one snapshot for each step, the [Phi] after that
    step. *)
Lemma train_loop_Ok (fixed : fixed_train_kwargs) (opt : matrix) :
  implicit_method (kw_method fixed) = true ->
  forall (steps_list : list nat) (vars : variable_kwargs key) (Phis : list loc)
         (st : store) (P : matrix) (vals : list matrix),
    arrays st !! kw_Phi vars = Some P ->
    Forall2 (fun l v => arrays st !! l = Some v) Phis vals ->
    (kw_estimate_feature_norm fixed = true -> is_Some (kw_estimated_feature_norm vars)) ->
    metrics_computable fixed opt (length steps_list)
      (P, kw_estimated_feature_norm vars, kw_key vars) ->
    exists vars' Phis' st' new,
      train_loop fixed opt steps_list (vars, Phis) st = (Ok (vars', Phis'), st') /\
      Forall2 (fun l v => arrays st' !! l = Some v) Phis' (vals ++ new) /\
      length new = length steps_list /\
      forall j, j < length steps_list ->
        exists Phi,
          Phi_after fixed (S j) (P, kw_estimated_feature_norm vars, kw_key vars)
          = Some Phi /\ new !! j = Some Phi.
Proof.
  intros Hmethod steps_list.
  induction steps_list as [|step steps_list IH]; intros vars Phis st P vals HP HPhis Hefn Hmet.
  - exists vars, Phis, st, []. cbn [train_loop]. rewrite app_nil_r.
    repeat split; try assumption. intros j Hj. cbn in Hj. lia.
  - destruct (train_step_total P (kw_Psi fixed) (kw_explicit_weight_matrix fixed)
                (kw_estimated_feature_norm vars) (kw_learning_rate fixed) (kw_key vars)
                (kw_method fixed) (kw_lissa_kappa fixed)
                (kw_covariance_batch_size fixed) (kw_main_batch_size fixed)
                (kw_weight_batch_size fixed) (kw_estimate_feature_norm fixed)
                Hmethod Hefn) as (out & Hstep & Hefn').
    assert (one_step fixed (P, kw_estimated_feature_norm vars, kw_key vars)
            = Ok (out_Phi out, out_estimated_feature_norm out, out_key out)) as Hone.
    { unfold one_step, step_call. rewrite Hstep. reflexivity. }
    destruct (Hmet 1 (out_Phi out)) as [m Hm].
    { cbn [length]. lia. }
    { unfold Phi_after. cbn [steps]. rewrite Hone. reflexivity. }
    destruct (train_iteration_Ok fixed opt step vars Phis st P out m HP Hstep Hm)
      as (st1 & Hiter & Harrays & _).
    cbn [train_loop]. rewrite (bind_Ok _ _ _ _ _ Hiter).
    set (vars1 := {| kw_Phi := length (arrays st);
                     kw_estimated_feature_norm := out_estimated_feature_norm out;
                     kw_key := out_key out |}).
    destruct (IH vars1 (Phis ++ [S (length (arrays st))]) st1 (out_Phi out)
                (vals ++ [out_Phi out]))
      as (vars' & Phis' & st' & new & Hloop & HPhis' & Hlen & Hnew).
    + cbn [vars1 kw_Phi]. rewrite Harrays. now apply list_lookup_middle.
    + apply Forall2_app.
      * eapply Forall2_impl; [exact HPhis|]. intros l v Hl. rewrite Harrays.
        now apply lookup_app_l_Some.
      * constructor; [|constructor]. rewrite Harrays.
        change (arrays st ++ [out_Phi out; out_Phi out])
          with (arrays st ++ [out_Phi out] ++ [out_Phi out]).
        rewrite app_assoc. apply list_lookup_middle. rewrite length_app. cbn. lia.
    + exact Hefn'.
    + intros j Phi Hj HPhi. apply (Hmet (S j) Phi); [cbn [length]; lia|].
      unfold Phi_after in *. cbn [steps]. rewrite Hone. exact HPhi.
    + exists vars', Phis', st', (out_Phi out :: new). split; [exact Hloop|].
      split; [now rewrite <- app_assoc in HPhis'|].
      split; [cbn [length]; now rewrite Hlen|].
      intros [|j] Hj.
      * exists (out_Phi out). split; [|reflexivity].
        unfold Phi_after. cbn [steps]. rewrite Hone. reflexivity.
      * destruct (Hnew j) as (Phi & HPhi & Hj'); [cbn [length] in Hj; lia|].
        exists Phi. split; [|exact Hj'].
        unfold Phi_after in *. cbn [steps]. rewrite Hone. exact HPhi.
Qed.

(** [train] up to its loop: two copies of the caller's array, then the check
    of the optimizer. *)
Lemma train_unfold (initial_step : nat) (Phi : loc) (Psi opt : matrix)
  (num_epochs : nat) (lr : float) (k : key) (method : string) (kappa : float)
  (optimizer : string) (cbs mbs wbs : nat) (est : bool) (st : store) (Phi0 : matrix) :
  arrays st !! Phi = Some Phi0 ->
  train initial_step Phi Psi opt num_epochs lr k method kappa optimizer cbs mbs wbs est st
  = let st2 := with_array (with_array st Phi0) Phi0 in
    if optimizer =? "sgd" then
      bind (train_loop (initial_fixed Phi0 Psi lr k method kappa cbs mbs wbs est) opt
              (range (initial_step + 1) (num_epochs + 1))
              ({| kw_Phi := length (arrays st);
                  kw_estimated_feature_norm := snd (fst (initial_state Phi0 k est));
                  kw_key := fst (random_split k) |},
               [S (length (arrays st))]))
           (fun r => jnp_stack (snd r)) st2
    else (Raise AssertionError, st2).
Proof.
  intros HPhi. unfold train.
  rewrite (bind_Ok _ _ _ _ _ (jnp_copy_Ok _ _ _ HPhi)).
  rewrite (bind_Ok _ _ _ _ _
             (jnp_copy_Ok _ _ _ (lookup_with_array_new st Phi0))).
  assert (length (arrays (with_array st Phi0)) = S (length (arrays st))) as ->.
  { cbn. rewrite length_app. cbn. lia. }
  rewrite (bind_Ok _ _ _ _ _
             (read_Ok _ _ _ (lookup_with_array_old _ Phi0 _ _
                               (lookup_with_array_new st Phi0)))).
  unfold initial_fixed, initial_state. cbn [fst snd].
  destruct (random_split k) as [k' weight_key]. cbn [fst snd]. cbv zeta.
  destruct (optimizer =? "sgd").
  - unfold bind at 1. unfold ret at 1. unfold bind.
    destruct (train_loop _ _ _ _ _) as [[[vars' Phis']|e] st']; reflexivity.
  - reflexivity.
Qed.

Lemma train_loop_inv_Ok (fixed : fixed_train_kwargs) (opt : matrix)
  (steps_list : list nat) (vars vars' : variable_kwargs key) (Phis Phis' : list loc)
  (st st' : store) :
  train_loop fixed opt steps_list (vars, Phis) st = (Ok (vars', Phis'), st') ->
  exists more, Phis' = Phis ++ more /\ length more = length steps_list.
Proof.
  revert vars Phis st.
  induction steps_list as [|step steps_list IH]; intros vars Phis st H.
  - cbn [train_loop] in H. unfold ret in H. injection H as <- <- <-.
    exists []. now rewrite app_nil_r.
  - cbn [train_loop] in H.
    apply bind_inv_Ok in H as ([vars1 Phis1] & st1 & Hiter & Hloop).
    pose proof (train_iteration_inv_Ok _ _ _ _ _ _ _ _ Hiter)
      as (P & out & m & HP & Hstep & Hm).
    destruct (train_iteration_Ok fixed opt step vars Phis st P out m HP Hstep Hm)
      as (st1' & Hiter' & _).
    rewrite Hiter in Hiter'. injection Hiter' as -> -> _.
    apply IH in Hloop as (more & -> & Hlen).
    exists (S (length (arrays st)) :: more). rewrite <- app_assoc.
    split; [reflexivity|]. cbn [length]. now rewrite Hlen.
Qed.

Lemma jnp_stack_inv_Ok (l : loc) (ls : list loc) (st st' : store) (traj : list matrix) :
  jnp_stack (l :: ls) st = (Ok traj, st') ->
  exists v vs, arrays st !! l = Some v /\ traj = v :: vs.
Proof.
  cbn [jnp_stack]. intros H.
  apply bind_inv_Ok in H as (v & st1 & Hread & H).
  apply read_inv_Ok in Hread as [Hv _].
  apply bind_inv_Ok in H as (vs & st2 & _ & H).
  unfold ret in H. injection H as <- _. eauto.
Qed.

(** C10.  [train] works on a copy of the array it is given: after [train],
    whether it returned or raised, the caller's array (and every other array
    of the store) holds what it held, and the first entry of a returned
    trajectory is that initial value. *)
Theorem train_keeps_caller_Phi (initial_step : nat) (Phi : loc) (Psi opt : matrix)
  (num_epochs : nat) (lr : float) (k : key) (method : string) (kappa : float)
  (optimizer : string) (cbs mbs wbs : nat) (est : bool) (st : store) (Phi0 : matrix) :
  arrays st !! Phi = Some Phi0 ->
  let run :=
    train initial_step Phi Psi opt num_epochs lr k method kappa optimizer
      cbs mbs wbs est st in
  arrays (snd run) !! Phi = Some Phi0 /\
  (forall (l : loc) (v : matrix),
     arrays st !! l = Some v -> arrays (snd run) !! l = Some v) /\
  (forall traj : list matrix, fst run = Ok traj -> traj !! 0 = Some Phi0).
Proof.
  intros HPhi run.
  assert (forall (l : loc) (v : matrix),
            arrays st !! l = Some v -> arrays (snd run) !! l = Some v) as Hframe.
  { intros l v Hl.
    pose proof (preserves_train initial_step Phi Psi opt num_epochs lr k method kappa
                  optimizer cbs mbs wbs est st) as Hpre.
    eapply prefix_lookup_Some; [exact Hl|exact Hpre]. }
  split; [now apply Hframe|]. split; [exact Hframe|].
  intros traj Hrun. unfold run in Hrun.
  rewrite (train_unfold _ _ _ _ _ _ _ _ _ _ _ _ _ _ _ _ HPhi) in Hrun. cbv zeta in Hrun.
  destruct (optimizer =? "sgd"); [|discriminate Hrun].
  set (st2 := with_array (with_array st Phi0) Phi0) in Hrun.
  destruct (bind _ _ st2) as [r st'] eqn:Hbind. cbn [fst] in Hrun. subst r.
  apply bind_inv_Ok in Hbind as ([vars' Phis'] & st1 & Hloop & Hstack).
  cbn [snd] in Hstack.
  match type of Hloop with
  | ?m st2 = _ =>
      assert (arrays st2 `prefix_of` arrays (snd (m st2))) as Hpre
        by apply preserves_train_loop
  end.
  rewrite Hloop in Hpre. cbn [snd] in Hpre.
  apply train_loop_inv_Ok in Hloop as (more & -> & _).
  apply jnp_stack_inv_Ok in Hstack as (v & vs & Hv & ->).
  assert (arrays st1 !! S (length (arrays st)) = Some Phi0) as Hsnap.
  { eapply prefix_lookup_Some; [|exact Hpre].
    unfold st2. cbn [with_array arrays].
    apply (list_lookup_middle (arrays st ++ [Phi0]) [] Phi0).
    rewrite length_app. cbn. lia. }
  rewrite Hsnap in Hv. now injection Hv as <-.
Qed.

Lemma length_range (lo hi : nat) : length (range lo hi) = hi - lo.
Proof. unfold range. apply length_seq. Qed.

(** C7, as the code has it.  With the sgd optimizer and an implicit method,
    and as long as the diagnostics of each new [Phi] can be computed, [train]
    returns a trajectory of [num_epochs - initial_step + 1] entries (so
    [num_epochs + 1] entries for a run that starts at step 0): entry 0 is the
    [Phi] that [train] was given, and entry [j] is [Phi] after the [j]-th step
    that this run performs. *)
Theorem trajectory_of_train (initial_step : nat) (Phi : loc) (Psi opt : matrix)
  (num_epochs : nat) (lr : float) (k : key) (method : string) (kappa : float)
  (cbs mbs wbs : nat) (est : bool) (st : store) (Phi0 : matrix) :
  let fixed := initial_fixed Phi0 Psi lr k method kappa cbs mbs wbs est in
  let s0 := initial_state Phi0 k est in
  let n := num_epochs - initial_step in
  arrays st !! Phi = Some Phi0 ->
  implicit_method method = true ->
  metrics_computable fixed opt n s0 ->
  exists (traj : list matrix) (st' : store),
    train initial_step Phi Psi opt num_epochs lr k method kappa "sgd" cbs mbs wbs est st
    = (Ok traj, st') /\
    length traj = n + 1 /\
    (initial_step = 0 -> length traj = num_epochs + 1) /\
    forall j, j <= n ->
      exists Phi_j, Phi_after fixed j s0 = Some Phi_j /\ traj !! j = Some Phi_j.
Proof.
  intros fixed s0 n HPhi Hmethod Hmetrics.
  rewrite (train_unfold _ _ _ _ _ _ _ _ _ _ _ _ _ _ _ _ HPhi). cbv zeta.
  change ("sgd" =? "sgd") with true. cbv iota.
  set (st2 := with_array (with_array st Phi0) Phi0).
  set (vars := {| kw_Phi := length (arrays st);
                  kw_estimated_feature_norm := snd (fst (initial_state Phi0 k est));
                  kw_key := fst (random_split k) |}).
  assert (length (range (initial_step + 1) (num_epochs + 1)) = n) as Hlen.
  { rewrite length_range. unfold n. lia. }
  destruct (train_loop_Ok fixed opt Hmethod
              (range (initial_step + 1) (num_epochs + 1)) vars
              [S (length (arrays st))] st2 Phi0 [Phi0])
    as (vars' & Phis' & st' & new & Hloop & HPhis' & Hnewlen & Hnew).
  - unfold st2, vars. cbn [kw_Phi]. apply lookup_with_array_old.
    apply lookup_with_array_new.
  - constructor; [|constructor].
    unfold st2. cbn [with_array arrays].
    apply (list_lookup_middle (arrays st ++ [Phi0]) [] Phi0).
    rewrite length_app. cbn. lia.
  - unfold vars, initial_state. cbn. intros ->. eauto.
  - rewrite Hlen. exact Hmetrics.
  - exists ([Phi0] ++ new), st'. fold fixed.
    rewrite (bind_Ok _ _ _ _ _ Hloop). cbn [snd].
    split; [now apply jnp_stack_Ok|].
    rewrite Hlen in Hnewlen, Hnew.
    assert (length ([Phi0] ++ new) = n + 1) as Htraj.
    { cbn [app length]. rewrite Hnewlen. lia. }
    split; [exact Htraj|]. split.
    { intros ->. rewrite Htraj. unfold n. lia. }
    intros [|j] Hj.
    + exists Phi0. split; reflexivity.
    + destruct (Hnew j) as (Phi_j & HPhi_j & Hj'); [lia|].
      exists Phi_j. split; [exact HPhi_j|exact Hj'].
Qed.

Lemma known_method_false (method : string) :
  known_method method = false ->
  (method =? "explicit") = false /\ (method =? "oracle") = false /\
  (method =? "naive") = false /\ (method =? "naive++") = false /\
  (method =? "lissa") = false.
Proof.
  unfold known_method, implicit_method.
  destruct (method =? "explicit"), (method =? "oracle"), (method =? "naive"),
    (method =? "naive++"), (method =? "lissa"); cbn; intros H;
    try discriminate H; repeat split; reflexivity.
Qed.

Lemma unknown_method_step (method : string) :
  known_method method = false ->
  forall (P Psi W : matrix) (efn : option float) (lr : float) (k : key)
         (kappa : float) (cbs mbs wbs : nat) (est : bool),
    _train_step P Psi W efn lr k method kappa cbs mbs wbs est = Raise UnboundLocalError.
Proof.
  intros H. apply known_method_false in H as (He & Ho & Hn & Hnn & Hl).
  intros P Psi W efn lr k kappa cbs mbs wbs est. unfold _train_step.
  destruct (draw_states (nrows P) mbs k) as [source_states k1].
  destruct (the_index_draw (ncols Psi) k1) as (t & _ & Ht).
  destruct (draw_states (ncols Psi) 1 k1) as [task k2]. cbn [fst] in Ht.
  unfold update_feature_norm.
  rewrite Hl. cbn [andb rbind]. rewrite Ht. cbn [rbind].
  unfold weight_vectors, implicit_estimates.
  rewrite He, Ho, Hn, Hnn, Hl. reflexivity.
Qed.

(** C8, as the code has it.  An optimizer other than sgd makes [train] fail
    on its assertion, before the loop: the store then holds the two copies of
    [Phi] and nothing else new.  A method tag outside the five is not checked
    at startup: every training step with such a tag fails on its unbound
    covariance, so [train] fails in its first step when it has a step to
    perform, and returns the one-entry trajectory when it has none. *)
Theorem misconfigured_runs (initial_step : nat) (Phi : loc) (Psi opt : matrix)
  (num_epochs : nat) (lr : float) (k : key) (method : string) (kappa : float)
  (optimizer : string) (cbs mbs wbs : nat) (est : bool) (st : store) (Phi0 : matrix) :
  arrays st !! Phi = Some Phi0 ->
  let st2 := with_array (with_array st Phi0) Phi0 in
  (optimizer <> "sgd" ->
   train initial_step Phi Psi opt num_epochs lr k method kappa optimizer cbs mbs wbs est st
   = (Raise AssertionError, st2)) /\
  (known_method method = false ->
   (forall (P Psi' W : matrix) (efn : option float) (lr' : float) (k' : key)
           (kappa' : float) (cbs' mbs' wbs' : nat) (est' : bool),
      _train_step P Psi' W efn lr' k' method kappa' cbs' mbs' wbs' est'
      = Raise UnboundLocalError) /\
   (initial_step < num_epochs ->
    train initial_step Phi Psi opt num_epochs lr k method kappa "sgd" cbs mbs wbs est st
    = (Raise UnboundLocalError, st2)) /\
   (num_epochs <= initial_step ->
    train initial_step Phi Psi opt num_epochs lr k method kappa "sgd" cbs mbs wbs est st
    = (Ok [Phi0], st2))).
Proof.
  intros HPhi st2. split.
  - intros Hopt.
    rewrite (train_unfold _ _ _ _ _ _ _ _ _ _ _ _ _ _ _ _ HPhi). cbv zeta.
    apply String.eqb_neq in Hopt. rewrite Hopt. reflexivity.
  - intros Hmethod.
    pose proof (unknown_method_step method Hmethod) as Hstep.
    split; [exact Hstep|]. split.
    + intros Hlt.
      rewrite (train_unfold _ _ _ _ _ _ _ _ _ _ _ _ _ _ _ _ HPhi). cbv zeta.
      change ("sgd" =? "sgd") with true. cbv iota. fold st2.
      unfold range.
      replace (num_epochs + 1 - (initial_step + 1)) with (S (num_epochs - initial_step - 1))
        by lia.
      cbn [seq train_loop]. apply bind_Raise. apply bind_Raise.
      unfold train_iteration. apply bind_Raise.
      unfold call_train_step. cbn [kw_Phi].
      assert (arrays st2 !! length (arrays st) = Some Phi0) as Hread.
      { unfold st2. apply lookup_with_array_old. apply lookup_with_array_new. }
      rewrite (bind_Ok _ _ _ _ _ (read_Ok _ _ _ Hread)).
      apply bind_Raise. unfold lift. now rewrite Hstep.
    + intros Hle.
      rewrite (train_unfold _ _ _ _ _ _ _ _ _ _ _ _ _ _ _ _ HPhi). cbv zeta.
      change ("sgd" =? "sgd") with true. cbv iota. fold st2.
      unfold range.
      replace (num_epochs + 1 - (initial_step + 1)) with 0 by lia.
      cbn [seq train_loop]. unfold bind at 1. unfold ret at 1. cbn [snd].
      apply jnp_stack_Ok. constructor; [|constructor].
      unfold st2. cbn [with_array arrays].
      apply (list_lookup_middle (arrays st ++ [Phi0]) [] Phi0).
      rewrite length_app. cbn. lia.
Qed.

End TrainRuns.

(** ** A solver that finds every system singular *)












Section SingularSolve.
Context (C : Collaborators).








End SingularSolve.


(** ** The explicit method *)

(** C2.  The update of the explicit weight matrix does not take place: the
    step reaches the in-place update of the sampled column and is refused
    there, for every input; no weight matrix is returned. *)
Theorem explicit_step_raises `{C : Collaborators} (Phi Psi W : matrix)
  (efn : option float) (lr : float) (k : key) (kappa : float) (cbs mbs wbs : nat)
  (est : bool) :
  (forall (source_states : list nat) (task : nat) (error : vector),
     explicit_weight_update Phi W source_states task lr error = Raise TypeError) /\
  _train_step Phi Psi W efn lr k "explicit" kappa cbs mbs wbs est = Raise TypeError.
Proof.
  split; [reflexivity|]. unfold _train_step.
  destruct (draw_states (nrows Phi) mbs k) as [source_states k1].
  destruct (the_index_draw (ncols Psi) k1) as (t & _ & Ht).
  destruct (draw_states (ncols Psi) 1 k1) as [task k2]. cbn [fst] in Ht.
  unfold update_feature_norm. change ("explicit" =? "lissa") with false.
  cbn [andb rbind]. rewrite Ht. reflexivity.
Qed.

(** ** Runs of the reference collaborators *)

Module Runs.
Import Reference.

Example explicit_step : step "explicit" = Raise TypeError.
Proof. vm_compute. reflexivity. Qed.

Example explicit_run : fst (run 0 2 "explicit" "sgd") = Raise TypeError.
Proof. vm_compute. reflexivity. Qed.

Example sampled_states : fst (draw 3 2 42%Z) = [0; 2].
Proof. vm_compute. reflexivity. Qed.

Example lissa_feature_norm :
  exists out, step "lissa" = Ok out /\
              out_estimated_feature_norm out = Some (2 + 0.01 * (1 - 2))%float.
Proof. eexists. split; vm_compute; reflexivity. Qed.

Example oracle_run_length :
  exists traj st', run 0 2 "oracle" "sgd" = (Ok traj, st') /\ length traj = 2 + 1.
Proof. eexists. eexists. split; vm_compute; reflexivity. Qed.

Example singular_system :
  compute_cosine_similarity (C := collaborators) [[0%float]; [0%float]] [[1%float]; [0%float]]
  = Ok nan.
Proof. vm_compute. reflexivity. Qed.

Lemma train_step_frame_witness :
  (1 ∉ fst (draw 3 2 42%Z)) /\
  (forall out, step "oracle" = Ok out -> out_Phi out !! 1 = Some [2%float]).
Proof.
  assert (1 ∉ fst (draw 3 2 42%Z)) as H.
  { rewrite sampled_states. intros Hin.
    apply elem_of_cons in Hin as [Hin|Hin]; [discriminate Hin|].
    apply elem_of_cons in Hin as [Hin|Hin]; [discriminate Hin|].
    inversion Hin. }
  split; [exact H|]. intros out Hout.
  destruct (train_step_frame (C := collaborators) Phi0 Psi0 W0 (Some 2%float)
              0.1%float 42%Z "oracle" 0.9%float 4 2 3 true 1 H) as [_ Hframe].
  destruct (Hframe out Hout) as [Hrow _]. exact Hrow.
Defined.

Lemma sgd_update_rows_witness :
  let w := weight_estimate
             (scale_r (pinv1 (matmul (transpose Phi0) Phi0)) (of_nat 3))
             Phi0 Psi0 (arange 3) 1 in
  let gradient_0 := map (fun x => (x * (dot [1%float] w - entry Psi0 0 1))%float) w in
  exists out,
    step "oracle" = Ok out /\
    out_gradient out !! 0 = Some gradient_0 /\
    out_Phi out !! 0
    = Some (vec_sub [1%float] (map (fun x => (0.1 * x)%float) gradient_0)).
Proof.
  intros w gradient_0.
  assert (exists out, step "oracle" = Ok out) as [out Hout].
  { eexists. vm_compute. reflexivity. }
  exists out. split; [exact Hout|].
  refine (proj2 (proj2 (proj2
            (sgd_update_rows (C := collaborators) Phi0 Psi0 W0 (Some 2%float) 0.1%float
               42%Z "oracle" 0.9%float 4 2 3 true 1 w w 1000676753%Z 0 0 [1%float]
               _ _ _ _ _))) out Hout);
    vm_compute; reflexivity.
Defined.

Lemma trajectory_of_train_witness :
  exists traj st',
    run 1 3 "oracle" "sgd" = (Ok traj, st') /\ length traj = 3 /\
    traj !! 0 = Some Phi0.
Proof.
  destruct (trajectory_of_train (C := collaborators) 1 0 Psi0 optimal_subspace0 3
              0.1%float 42%Z "oracle" 0.9%float 4 2 3 true store0 Phi0)
    as (traj & st' & Hrun & Hlen & _ & Hentries).
  - reflexivity.
  - reflexivity.
  - intros j Phi Hj HPhi.
    assert (j = 1 \/ j = 2) as [-> | ->] by lia;
      vm_compute in HPhi; injection HPhi as <-; eexists; vm_compute; reflexivity.
  - exists traj, st'. split; [exact Hrun|]. split; [exact Hlen|].
    destruct (Hentries 0) as (Phi_0 & HPhi_0 & ->); [lia|].
    vm_compute in HPhi_0. now injection HPhi_0 as <-.
Defined.

(** A run resumed at step 1 with [num_epochs = 2] returns 2 entries, not 3. *)
Lemma resumed_trajectory_counterexample :
  exists traj st',
    run 1 2 "oracle" "sgd" = (Ok traj, st') /\ length traj <> 2 + 1.
Proof.
  eexists. eexists. split.
  - vm_compute. reflexivity.
  - cbn. discriminate.
Qed.

Lemma misconfigured_runs_witness :
  arrays store0 !! 0 = Some Phi0 /\
  run 0 2 "oracle" "adam"
  = (Raise AssertionError, with_array (with_array store0 Phi0) Phi0) /\
  run 0 2 "pca" "sgd"
  = (Raise UnboundLocalError, with_array (with_array store0 Phi0) Phi0).
Proof.
  assert (arrays store0 !! 0 = Some Phi0) as H by reflexivity.
  split; [exact H|].
  destruct (misconfigured_runs (C := collaborators) 0 0 Psi0 optimal_subspace0 2
              0.1%float 42%Z "oracle" 0.9%float "adam" 4 2 3 true store0 Phi0 H)
    as [Hoptimizer _].
  destruct (misconfigured_runs (C := collaborators) 0 0 Psi0 optimal_subspace0 2
              0.1%float 42%Z "pca" 0.9%float "sgd" 4 2 3 true store0 Phi0 H)
    as [_ Hmethod].
  split.
  - apply Hoptimizer. discriminate.
  - destruct (Hmethod eq_refl) as (_ & Hfails & _). apply Hfails. lia.
Defined.

(** A run with an unmatched method tag and no step to perform does not fail. *)
Lemma unmatched_method_counterexample :
  known_method "pca" = false /\
  run 0 0 "pca" "sgd" = (Ok [Phi0], with_array (with_array store0 Phi0) Phi0).
Proof. split; vm_compute; reflexivity. Qed.

Lemma train_keeps_caller_Phi_witness :
  arrays store0 !! 0 = Some Phi0 /\
  arrays (snd (run 0 2 "lissa" "sgd")) !! 0 = Some Phi0 /\
  arrays (snd (run 0 2 "explicit" "sgd")) !! 0 = Some Phi0.
Proof.
  assert (arrays store0 !! 0 = Some Phi0) as H by reflexivity.
  split; [exact H|]. split.
  - exact (proj1 (train_keeps_caller_Phi (C := collaborators) 0 0 Psi0
                    optimal_subspace0 2 0.1%float 42%Z "lissa" 0.9%float "sgd"
                    4 2 3 true store0 Phi0 H)).
  - exact (proj1 (train_keeps_caller_Phi (C := collaborators) 0 0 Psi0
                    optimal_subspace0 2 0.1%float 42%Z "explicit" 0.9%float "sgd"
                    4 2 3 true store0 Phi0 H)).
Defined.

End Runs.
